(** * The challenge-selector shell of react-practice (App.jsx)

    A shallow embedding of the one piece of runnable logic of the
    repository: the module-level [challenges] array and the [App]
    component, whose only state is the number held by
    [useState(1)].  The rendered JSX is kept as a small virtual-DOM
    tree, event handlers as the action they perform when fired. *)

From Stdlib Require Import ZArith List String Ascii Bool Lia DecimalString.
Import ListNotations.

Local Open Scope string_scope.
Local Open Scope Z_scope.
Local Open Scope list_scope.

Set Warnings "-register-all".

(** ** Data model *)

(** The five imported challenge components.  Each is a function
    component, hence a truthy JavaScript value. *)
Inductive Component : Set :=
| Challenge1
| Challenge2
| Challenge3
| Challenge4
| Challenge5.

(** An entry of the [challenges] array literal:
    [{ id, name, component, time }]. *)
Record ChallengeDescriptor : Set := mkChallenge {
  id : Z;
  name : string;
  component : Component;
  time : string
}.

(** The state of [App]: the value of the single [useState] cell. *)
Record State : Set := mkState {
  selectedChallenge : Z
}.

(** What an [onClick] closure of the sidebar does when it is called:
    [() => setSelectedChallenge(challenge.id)]. *)
Inductive Action : Set :=
| SetSelectedChallenge (i : Z).

(** A value of an inline style object: a string literal, or a number
    literal kept as it is written in the source. *)
Inductive StyleValue : Set :=
| Css (s : string)
| CssNum (literal : string).

Record Props : Set := mkProps {
  key : option Z;
  className : option string;
  style : list (string * StyleValue);
  onClick : option Action
}.

(** The tree a render returns: host elements, text and number
    children, and the element of a challenge component. *)
Inductive VNode : Set :=
| Element (tag : string) (props : Props) (children : list VNode)
| Text (s : string)
| Num (n : Z)
| Mount (c : Component).

Definition noProps : Props :=
  {| key := None; className := None; style := []; onClick := None |}.

Definition styled (st : list (string * StyleValue)) : Props :=
  {| key := None; className := None; style := st; onClick := None |}.

(** ** The registry *)

Definition challenges : list ChallengeDescriptor :=
  [ mkChallenge 1 "User List with Fetch" Challenge1 "10-15 min";
    mkChallenge 2 "Search & Filter" Challenge2 "15-20 min";
    mkChallenge 3 "Todo List (CRUD)" Challenge3 "20-25 min";
    mkChallenge 4 "Form Validation" Challenge4 "20-25 min";
    mkChallenge 5 "Custom Hook" Challenge5 "15-20 min" ].

(** ** The state cell *)

(** [useState(1)]. *)
Definition initialState : State := {| selectedChallenge := 1 |}.

(** The setter returned by [useState], called with a number: the cell
    takes that value, whatever it is. *)
Definition setSelectedChallenge (i : Z) (s : State) : State :=
  {| selectedChallenge := i |}.

Definition dispatch (a : Action) (s : State) : State :=
  match a with
  | SetSelectedChallenge i => setSelectedChallenge i s
  end.

(** ** The component, over the array it closes over *)

(** The stopwatch emoji that precedes the time estimate, as its UTF-8
    bytes (U+23F1 U+FE0F), followed by the space of the JSX text. *)
Definition stopwatch : string :=
  String (ascii_of_nat 226) (String (ascii_of_nat 143)
  (String (ascii_of_nat 177) (String (ascii_of_nat 239)
  (String (ascii_of_nat 184) (String (ascii_of_nat 143) " "))))).

Section Shell.

Variable registry : list ChallengeDescriptor.

(** [registry.find(c => c.id === i)]: the first entry whose id is
    [i], or [undefined] ([None]). *)
Definition findById (i : Z) : option ChallengeDescriptor :=
  find (fun c => id c =? i) registry.

(** The entry looked up by the current [selectedChallenge]. *)
Definition activeDescriptor (s : State) : option ChallengeDescriptor :=
  findById (selectedChallenge s).

(** [challenges.find(...)?.component]: optional chaining turns a
    missing entry into [undefined] instead of a TypeError. *)
Definition CurrentChallenge (s : State) : option Component :=
  match activeDescriptor s with
  | Some c => Some (component c)
  | None => None
  end.

Definition header : VNode :=
  Element "header"
    (styled [ ("background", Css "#282c34");
              ("color", Css "white");
              ("padding", Css "20px");
              ("marginBottom", Css "20px") ])
    [ Element "h1" noProps [ Text "React Interview Practice" ];
      Element "p" noProps
        [ Text "Select a challenge and practice for your 30-minute interview!" ] ].

(** One [<li key=...>] of the sidebar, with its button. *)
Definition entry (s : State) (challenge : ChallengeDescriptor) : VNode :=
  Element "li"
    {| key := Some (id challenge);
       className := None;
       style := [ ("marginBottom", Css "10px") ];
       onClick := None |}
    [ Element "button"
        {| key := None;
           className := None;
           style :=
             [ ("width", Css "100%");
               ("padding", Css "10px");
               ("textAlign", Css "left");
               ("background",
                 if selectedChallenge s =? id challenge
                 then Css "#007bff" else Css "#f0f0f0");
               ("color",
                 if selectedChallenge s =? id challenge
                 then Css "white" else Css "black");
               ("border", Css "none");
               ("borderRadius", Css "4px");
               ("cursor", Css "pointer") ];
           onClick := Some (SetSelectedChallenge (id challenge)) |}
        [ Element "div" noProps
            [ Element "strong" noProps
                [ Text "Challenge "; Num (id challenge) ] ];
          Element "div"
            (styled [ ("fontSize", Css "12px"); ("marginTop", Css "4px") ])
            [ Text (name challenge) ];
          Element "div"
            (styled [ ("fontSize", Css "11px"); ("marginTop", Css "2px");
                      ("opacity", CssNum "0.8") ])
            [ Text stopwatch; Text (time challenge) ] ] ].

Definition sidebar (s : State) : VNode :=
  Element "aside"
    (styled [ ("width", Css "250px");
              ("padding", Css "20px");
              ("borderRight", Css "1px solid #ddd") ])
    [ Element "h3" noProps [ Text "Challenges" ];
      Element "ul"
        (styled [ ("listStyle", Css "none"); ("padding", CssNum "0") ])
        (map (entry s) registry) ].

(** [<main>] around the given children. *)
Definition main (body : list VNode) : VNode :=
  Element "main" (styled [ ("flex", CssNum "1") ]) body.

(** [{CurrentChallenge && <CurrentChallenge />}]: [undefined] is
    falsy and renders nothing. *)
Definition body (s : State) : list VNode :=
  match CurrentChallenge s with
  | Some c => [ Mount c ]
  | None => []
  end.

(** The outer two [<div>]s around header, sidebar and main. *)
Definition layout (h side m : VNode) : VNode :=
  Element "div"
    {| key := None; className := Some "app"; style := []; onClick := None |}
    [ h;
      Element "div"
        (styled [ ("display", Css "flex"); ("gap", Css "20px") ])
        [ side; m ] ].

Definition App (s : State) : VNode :=
  layout header (sidebar s) (main (body s)).

End Shell.

(** ** Reading a rendered tree *)

(** The actions of the [onClick] handlers of a tree, in document
    order: what a user can trigger from that view. *)
Fixpoint clicks (v : VNode) : list Action :=
  match v with
  | Element _ p ch =>
      match onClick p with
      | Some a => a :: flat_map clicks ch
      | None => flat_map clicks ch
      end
  | _ => []
  end.

(** The [key]s of the keyed elements of a tree, in document order:
    the entries the view lists. *)
Fixpoint keys (v : VNode) : list Z :=
  match v with
  | Element _ p ch =>
      match key p with
      | Some k => k :: flat_map keys ch
      | None => flat_map keys ch
      end
  | _ => []
  end.

(** The challenge components a tree mounts. *)
Fixpoint mounted (v : VNode) : list Component :=
  match v with
  | Element _ _ ch => flat_map mounted ch
  | Mount c => [ c ]
  | _ => []
  end.

(** ** The step relation of the shell *)

(** A transition is a click on a button of the current view. *)
Inductive step (registry : list ChallengeDescriptor) : State -> State -> Prop :=
| step_click (s : State) (a : Action) :
    In a (clicks (App registry s)) ->
    step registry s (dispatch a s).

Inductive reachable (registry : list ChallengeDescriptor) : State -> Prop :=
| reach_init : reachable registry initialState
| reach_step (s s' : State) :
    reachable registry s -> step registry s s' -> reachable registry s'.

(** Running a sequence of selections, first id first. *)
Definition selectAll (ids : list Z) (s : State) : State :=
  fold_left (fun st i => setSelectedChallenge i st) ids s.

(** ** The challenge components *)

(** What each challenge component returns.  Their bodies hold only
    [TODO] comments, which JSX drops; the state cells that Challenge3
    and Challenge4 declare are not read by their JSX. *)
Definition render (c : Component) : VNode :=
  match c with
  | Challenge1 =>
      Element "div" (styled [ ("padding", Css "20px") ])
        [ Element "h2" noProps [ Text "Challenge 1: User List" ] ]
  | Challenge2 =>
      Element "div" (styled [ ("padding", Css "20px") ])
        [ Element "h2" noProps [ Text "Challenge 2: Search & Filter" ] ]
  | Challenge3 =>
      Element "div" (styled [ ("padding", Css "20px") ])
        [ Element "h2" noProps [ Text "Challenge 3: Todo List" ] ]
  | Challenge4 =>
      Element "div"
        (styled [ ("padding", Css "20px"); ("maxWidth", Css "400px") ])
        [ Element "h2" noProps [ Text "Challenge 4: Form Validation" ];
          Element "form" noProps [] ]
  | Challenge5 =>
      Element "div" (styled [ ("padding", Css "20px") ])
        [ Element "h2" noProps [ Text "Challenge 5: Custom Hook" ] ]
  end.

(** The page once the mounted components are rendered in place. *)
Fixpoint expand (v : VNode) : VNode :=
  match v with
  | Element t p ch => Element t p (map expand ch)
  | Mount c => render c
  | Text s => Text s
  | Num n => Num n
  end.

(** The texts of the [<h2>] headings of a tree, in document order. *)
Fixpoint headings (v : VNode) : list string :=
  match v with
  | Element t _ ch =>
      if String.eqb t "h2"
      then flat_map (fun c => match c with Text s => [ s ] | _ => [] end) ch
      else flat_map headings ch
  | _ => []
  end.

(** A number child as React prints it. *)
Definition numberText (n : Z) : string :=
  DecimalString.NilZero.string_of_int (Z.to_int n).

(** ** The highlight of the sidebar *)

(** The value of a property of a style object. *)
Definition styleOf (k : string) (st : list (string * StyleValue)) : option StyleValue :=
  match find (fun kv => String.eqb (fst kv) k) st with
  | Some kv => Some (snd kv)
  | None => None
  end.

(** Is the element painted with the colours of the selected button,
    background '#007bff' and text 'white'? *)
Definition isHighlighted (p : Props) : bool :=
  match styleOf "background" (style p), styleOf "color" (style p) with
  | Some (Css bg), Some (Css fg) => String.eqb bg "#007bff" && String.eqb fg "white"
  | _, _ => false
  end.

(** The actions of the handlers that sit on a highlighted element. *)
Fixpoint highlighted (v : VNode) : list Action :=
  match v with
  | Element _ p ch =>
      match onClick p with
      | Some a =>
          if isHighlighted p
          then a :: flat_map highlighted ch
          else flat_map highlighted ch
      | None => flat_map highlighted ch
      end
  | _ => []
  end.

(** ** Facts about lookup and rendering, for any registry *)

Section ShellFacts.

Variable registry : list ChallengeDescriptor.

Lemma findById_sound (i : Z) (d : ChallengeDescriptor) :
  findById registry i = Some d -> In d registry /\ id d = i.
Proof.
  unfold findById. intros Hf.
  apply find_some in Hf. destruct Hf as [Hin Heq].
  split; [ exact Hin | now apply Z.eqb_eq ].
Qed.

Lemma findById_absent (i : Z) :
  ~ In i (map id registry) -> findById registry i = None.
Proof.
  unfold findById. induction registry as [| c l IH]; simpl; intros Hn.
  - reflexivity.
  - destruct (Z.eqb_spec (id c) i) as [Heq | _].
    + exfalso. apply Hn. now left.
    + apply IH. intros Hin. apply Hn. now right.
Qed.

Lemma findById_unique (d : ChallengeDescriptor) :
  NoDup (map id registry) -> In d registry ->
  findById registry (id d) = Some d.
Proof.
  unfold findById. induction registry as [| c l IH]; simpl; intros Hnd Hin.
  - contradiction.
  - inversion Hnd as [| x xs Hfresh Hrest]; subst.
    destruct Hin as [-> | Hin].
    + now rewrite Z.eqb_refl.
    + destruct (Z.eqb_spec (id c) (id d)) as [Heq | _].
      * exfalso. apply Hfresh. rewrite Heq. now apply in_map.
      * now apply IH.
Qed.

Lemma clicks_entries (s : State) (l : list ChallengeDescriptor) :
  flat_map clicks (map (entry s) l) =
  map (fun c => SetSelectedChallenge (id c)) l.
Proof.
  induction l as [| c l IH]; simpl; [ reflexivity | now rewrite IH ].
Qed.

Lemma keys_entries (s : State) (l : list ChallengeDescriptor) :
  flat_map keys (map (entry s) l) = map id l.
Proof.
  induction l as [| c l IH]; simpl; [ reflexivity | now rewrite IH ].
Qed.

Lemma clicks_body (s : State) : flat_map clicks (body registry s) = [].
Proof. unfold body. now destruct (CurrentChallenge registry s). Qed.

Lemma keys_body (s : State) : flat_map keys (body registry s) = [].
Proof. unfold body. now destruct (CurrentChallenge registry s). Qed.

(** The handlers of a view are one per registry entry, each
    selecting that entry's id. *)
Lemma clicks_App (s : State) :
  clicks (App registry s) =
  map (fun c => SetSelectedChallenge (id c)) registry.
Proof.
  unfold App, layout, sidebar, main. simpl.
  rewrite clicks_entries, clicks_body. now rewrite !app_nil_r.
Qed.

(** The keyed entries of a view are the registry's, in its order. *)
Lemma keys_App (s : State) : keys (App registry s) = map id registry.
Proof.
  unfold App, layout, sidebar, main. simpl.
  rewrite keys_entries, keys_body. now rewrite !app_nil_r.
Qed.

Lemma mounted_entries (s : State) (l : list ChallengeDescriptor) :
  flat_map mounted (map (entry s) l) = [].
Proof.
  induction l as [| c l IH]; simpl; [ reflexivity | exact IH ].
Qed.

(** The only component a view mounts is the current one, if any. *)
Lemma mounted_App (s : State) :
  mounted (App registry s) =
  match CurrentChallenge registry s with Some c => [ c ] | None => [] end.
Proof.
  unfold App, layout, sidebar, main, body. simpl.
  rewrite mounted_entries.
  now destruct (CurrentChallenge registry s).
Qed.

(** The steps of the shell are the selections of a registry id. *)
Lemma step_iff (s s' : State) :
  step registry s s' <->
  exists i, In i (map id registry) /\ s' = setSelectedChallenge i s.
Proof.
  split.
  - intros [s0 a Ha]. rewrite clicks_App in Ha.
    apply in_map_iff in Ha. destruct Ha as [c [<- Hc]].
    exists (id c). split; [ now apply in_map | reflexivity ].
  - intros [i [Hi ->]].
    change (setSelectedChallenge i s) with (dispatch (SetSelectedChallenge i) s).
    constructor. rewrite clicks_App.
    apply in_map_iff in Hi. destruct Hi as [c [<- Hc]].
    apply in_map_iff. now exists c.
Qed.

(** Re-rendering with the value the cell already holds. *)
Lemma setSelectedChallenge_same (s : State) :
  setSelectedChallenge (selectedChallenge s) s = s.
Proof. now destruct s. Qed.

End ShellFacts.

(** ** The registry of the application *)

Lemma challenges_ids : map id challenges = [1; 2; 3; 4; 5].
Proof. reflexivity. Qed.

Lemma challenges_NoDup : NoDup (map id challenges).
Proof.
  rewrite challenges_ids.
  repeat constructor; simpl; intuition discriminate.
Qed.

(** The invariant of the step relation, for a registry that holds the
    initial id. *)
Lemma reachable_inv (registry : list ChallengeDescriptor) (s : State) :
  In (selectedChallenge initialState) (map id registry) ->
  reachable registry s ->
  In (selectedChallenge s) (map id registry).
Proof.
  intros H1 Hr. induction Hr as [| s s' _ _ Hstep].
  - exact H1.
  - apply step_iff in Hstep. destruct Hstep as [i [Hi ->]]. exact Hi.
Qed.

(** A run of selections of registry ids is a path of the step
    relation. *)
Lemma selectAll_reachable (registry : list ChallengeDescriptor) (ids : list Z) :
  Forall (fun i => In i (map id registry)) ids ->
  forall s, reachable registry s -> reachable registry (selectAll ids s).
Proof.
  unfold selectAll. induction 1 as [| i ids Hi _ IH]; simpl; intros s Hs.
  - exact Hs.
  - apply IH. apply reach_step with (s := s); [ exact Hs | ].
    apply step_iff. now exists i.
Qed.

Lemma selectAll_inv (ids : list Z) :
  Forall (fun i => In i (map id challenges)) ids ->
  In (selectedChallenge (selectAll ids initialState)) (map id challenges).
Proof.
  intros Hids. apply reachable_inv.
  - simpl. now left.
  - apply selectAll_reachable; [ exact Hids | constructor ].
Qed.

(** ** The properties of the shell *)

(** C1.  For every descriptor of the registry, selecting its id makes
    it the active descriptor: the lookup by the new [selectedChallenge]
    returns that very descriptor, and the view mounts its component. *)
Theorem select_activates_descriptor (s : State) (d : ChallengeDescriptor) :
  In d challenges ->
  activeDescriptor challenges (setSelectedChallenge (id d) s) = Some d /\
  mounted (App challenges (setSelectedChallenge (id d) s)) = [ component d ].
Proof.
  intros Hin.
  assert (Hact : activeDescriptor challenges (setSelectedChallenge (id d) s) = Some d).
  { unfold activeDescriptor.
    change (selectedChallenge (setSelectedChallenge (id d) s)) with (id d).
    apply findById_unique; [ exact challenges_NoDup | exact Hin ]. }
  split; [ exact Hact | ].
  rewrite mounted_App. unfold CurrentChallenge. now rewrite Hact.
Qed.

Lemma select_activates_descriptor_witness :
  In (mkChallenge 3 "Todo List (CRUD)" Challenge3 "20-25 min") challenges /\
  activeDescriptor challenges (setSelectedChallenge 3 initialState) =
    Some (mkChallenge 3 "Todo List (CRUD)" Challenge3 "20-25 min") /\
  mounted (App challenges (setSelectedChallenge 3 initialState)) = [ Challenge3 ].
Proof.
  assert (H : In (mkChallenge 3 "Todo List (CRUD)" Challenge3 "20-25 min") challenges)
    by (simpl; auto).
  split; [ exact H | ].
  exact (select_activates_descriptor initialState
           (mkChallenge 3 "Todo List (CRUD)" Challenge3 "20-25 min") H).
Defined.

(** C2.  In every state reachable from the initial one by clicks on
    the sidebar (the selections of a registry id, see [step_iff]),
    [selectedChallenge] is the id of some descriptor of the registry;
    so it is after any sequence of selections of registry ids run
    from the initial state. *)
Theorem reachable_selected_in_registry :
  (forall s, reachable challenges s ->
     exists d, In d challenges /\ id d = selectedChallenge s) /\
  (forall ids, Forall (fun i => In i (map id challenges)) ids ->
     exists d, In d challenges /\
               id d = selectedChallenge (selectAll ids initialState)).
Proof.
  assert (Hfind : forall i, In i (map id challenges) ->
                    exists d, In d challenges /\ id d = i).
  { intros i Hin. apply in_map_iff in Hin. destruct Hin as [d [Hd Hin]].
    now exists d. }
  split.
  - intros s Hr. apply Hfind.
    apply reachable_inv; [ simpl; now left | exact Hr ].
  - intros ids Hids. apply Hfind. now apply selectAll_inv.
Qed.

Lemma reachable_selected_in_registry_witness :
  reachable challenges {| selectedChallenge := 4 |} /\
  exists d, In d challenges /\ id d = 4.
Proof.
  assert (H : reachable challenges {| selectedChallenge := 4 |}).
  { apply reach_step with (s := {| selectedChallenge := 2 |}).
    - apply reach_step with (s := initialState).
      + apply reach_init.
      + apply (step_click challenges initialState (SetSelectedChallenge 2)).
        simpl. auto.
    - apply (step_click challenges {| selectedChallenge := 2 |}
               (SetSelectedChallenge 4)).
      simpl. auto 6. }
  split; [ exact H | ].
  exact (proj1 reachable_selected_in_registry {| selectedChallenge := 4 |} H).
Defined.

(** C3.  Before any selection, [selectedChallenge] is the id of the
    first descriptor of the registry, and that first descriptor is the
    active one. *)
Theorem initial_selects_first :
  exists d,
    hd_error challenges = Some d /\
    selectedChallenge initialState = id d /\
    activeDescriptor challenges initialState = Some d.
Proof.
  exists (mkChallenge 1 "User List with Fetch" Challenge1 "10-15 min").
  repeat split.
Qed.

(** C4.  Selecting the registry id that is already selected leaves the
    state as it is and renders the same tree. *)
Theorem select_current_idempotent (s : State) (i : Z) :
  In i (map id challenges) ->
  i = selectedChallenge s ->
  setSelectedChallenge i s = s /\
  App challenges (setSelectedChallenge i s) = App challenges s.
Proof.
  intros _ ->. rewrite setSelectedChallenge_same. now split.
Qed.

Lemma select_current_idempotent_witness :
  setSelectedChallenge 2 {| selectedChallenge := 2 |} = {| selectedChallenge := 2 |} /\
  App challenges (setSelectedChallenge 2 {| selectedChallenge := 2 |}) =
  App challenges {| selectedChallenge := 2 |}.
Proof.
  apply (select_current_idempotent {| selectedChallenge := 2 |} 2).
  - simpl. auto.
  - reflexivity.
Defined.

(** C5.  Looking an id up in the registry returns the descriptor that
    carries this id when there is one, and [None] when no descriptor
    of the registry carries it. *)
Theorem findById_found_or_none (i : Z) :
  (forall d, In d challenges -> id d = i -> findById challenges i = Some d) /\
  ((forall d, In d challenges -> id d <> i) -> findById challenges i = None).
Proof.
  split.
  - intros d Hin <-.
    apply findById_unique; [ exact challenges_NoDup | exact Hin ].
  - intros Hnone. apply findById_absent.
    intros Hin. apply in_map_iff in Hin. destruct Hin as [d [Hid Hd]].
    exact (Hnone d Hd Hid).
Qed.

Lemma findById_found_or_none_witness :
  findById challenges 2 =
    Some (mkChallenge 2 "Search & Filter" Challenge2 "15-20 min") /\
  findById challenges 7 = None.
Proof.
  split.
  - apply (proj1 (findById_found_or_none 2)
             (mkChallenge 2 "Search & Filter" Challenge2 "15-20 min")).
    + simpl. auto.
    + reflexivity.
  - apply (proj2 (findById_found_or_none 7)).
    intros d Hd. simpl in Hd.
    repeat (destruct Hd as [<- | Hd]; [ discriminate | ]).
    contradiction.
Defined.

(** C6.  No two descriptors of the registry have the same id: the
    list of the ids, in registry order, has no duplicate. *)
Theorem registry_ids_distinct : NoDup (map id challenges).
Proof. exact challenges_NoDup. Qed.

(** C7.  The registry is a non-empty sequence in the order of the
    array literal (ids 1 to 5), and every view, whatever the state it
    is rendered in, lists its entries in this same order: two readings
    of the registry never differ. *)
Theorem registry_order_stable :
  challenges <> [] /\
  map id challenges = [1; 2; 3; 4; 5] /\
  (forall s, keys (App challenges s) = map id challenges) /\
  (forall s s', keys (App challenges s) = keys (App challenges s')).
Proof.
  split; [ discriminate | ].
  split; [ reflexivity | ].
  split.
  - intros s. apply keys_App.
  - intros s s'. now rewrite !keys_App.
Qed.

(** C8.  In any registry that starts with id 1 named "User List" and
    id 2 named "Search & Filter", the shell starts on id 1, and after
    selecting id 2 the active descriptor is the second one, named
    "Search & Filter". *)
Theorem scenario_select_second
    (registry rest : list ChallengeDescriptor) (d1 d2 : ChallengeDescriptor) :
  registry = d1 :: d2 :: rest ->
  id d1 = 1 -> name d1 = "User List" ->
  id d2 = 2 -> name d2 = "Search & Filter" ->
  selectedChallenge initialState = 1 /\
  activeDescriptor registry initialState = Some d1 /\
  activeDescriptor registry (setSelectedChallenge 2 initialState) = Some d2 /\
  option_map name (activeDescriptor registry (setSelectedChallenge 2 initialState))
    = Some "Search & Filter".
Proof.
  intros -> Hid1 _ Hid2 Hname2.
  assert (H1 : activeDescriptor (d1 :: d2 :: rest) initialState = Some d1).
  { unfold activeDescriptor, findById. simpl find. now rewrite Hid1. }
  assert (H2 : activeDescriptor (d1 :: d2 :: rest)
                 (setSelectedChallenge 2 initialState) = Some d2).
  { unfold activeDescriptor, findById. simpl find. now rewrite Hid1, Hid2. }
  repeat split; try assumption.
  rewrite H2. simpl. now rewrite Hname2.
Qed.

Lemma scenario_select_second_witness :
  option_map name
    (activeDescriptor
       [ mkChallenge 1 "User List" Challenge1 "10-15 min";
         mkChallenge 2 "Search & Filter" Challenge2 "15-20 min" ]
       (setSelectedChallenge 2 initialState))
  = Some "Search & Filter".
Proof.
  apply (scenario_select_second
           [ mkChallenge 1 "User List" Challenge1 "10-15 min";
             mkChallenge 2 "Search & Filter" Challenge2 "15-20 min" ]
           []
           (mkChallenge 1 "User List" Challenge1 "10-15 min")
           (mkChallenge 2 "Search & Filter" Challenge2 "15-20 min"));
    reflexivity.
Defined.

(** The same selection on the registry of the application. *)
Example challenges_select_second :
  option_map name
    (activeDescriptor challenges (setSelectedChallenge 2 initialState))
  = Some "Search & Filter".
Proof. reflexivity. Qed.

(** C9.  When [selectedChallenge] is the id of no descriptor, the
    lookup is [None], no component is current, and the view is still
    produced: the header and the whole sidebar around an empty
    [<main>]. *)
Theorem render_without_match (s : State) :
  ~ In (selectedChallenge s) (map id challenges) ->
  findById challenges (selectedChallenge s) = None /\
  CurrentChallenge challenges s = None /\
  App challenges s = layout header (sidebar challenges s) (main []) /\
  keys (App challenges s) = map id challenges /\
  mounted (App challenges s) = [].
Proof.
  intros Hn.
  assert (Hf : findById challenges (selectedChallenge s) = None)
    by now apply findById_absent.
  assert (Hc : CurrentChallenge challenges s = None).
  { unfold CurrentChallenge, activeDescriptor. now rewrite Hf. }
  split; [ exact Hf | ].
  split; [ exact Hc | ].
  split; [ unfold App, body; now rewrite Hc | ].
  split; [ apply keys_App | ].
  rewrite mounted_App. now rewrite Hc.
Qed.

Lemma render_without_match_witness :
  ~ In 42 (map id challenges) /\
  App challenges {| selectedChallenge := 42 |} =
    layout header (sidebar challenges {| selectedChallenge := 42 |}) (main []).
Proof.
  assert (H : ~ In (selectedChallenge {| selectedChallenge := 42 |})
                (map id challenges)).
  { simpl. intros Hin.
    repeat (destruct Hin as [Heq | Hin]; [ discriminate Heq | ]).
    exact Hin. }
  split; [ exact H | ].
  exact (proj1 (proj2 (proj2 (render_without_match _ H)))).
Defined.

(** C10.  The setter checks nothing: whatever integer it is given, in
    the registry or not, the cell holds exactly that integer
    afterwards, also when the call comes from a handler. *)
Theorem select_sets_any_id (i : Z) (s : State) :
  selectedChallenge (setSelectedChallenge i s) = i /\
  selectedChallenge (dispatch (SetSelectedChallenge i) s) = i.
Proof. split; reflexivity. Qed.

(** An id outside the registry is accepted like any other. *)
Example select_outside_registry :
  ~ In 42 (map id challenges) /\
  selectedChallenge (setSelectedChallenge 42 initialState) = 42.
Proof.
  split; [ | reflexivity ].
  simpl. intros Hin.
  repeat (destruct Hin as [Heq | Hin]; [ discriminate Heq | ]).
  exact Hin.
Qed.

(** ** Induction on rendered trees *)

Section VNodeInduction.

Variable P : VNode -> Prop.
Hypothesis P_Element :
  forall t p ch, Forall P ch -> P (Element t p ch).
Hypothesis P_Text : forall s, P (Text s).
Hypothesis P_Num : forall n, P (Num n).
Hypothesis P_Mount : forall c, P (Mount c).

Lemma VNode_nested_ind (v : VNode) : P v.
Proof.
  revert v. fix IH 1. intros [t p ch | s | n | c].
  - apply P_Element.
    induction ch as [| x r IHr]; constructor; [ apply IH | exact IHr ].
  - apply P_Text.
  - apply P_Num.
  - apply P_Mount.
Qed.

End VNodeInduction.

Lemma flat_map_map_ext {A : Type} (f : VNode -> list A) (g : VNode -> VNode)
    (l : list VNode) :
  Forall (fun v => f (g v) = f v) l ->
  flat_map f (map g l) = flat_map f l.
Proof.
  induction 1 as [| v l Hv _ IH]; simpl; [ reflexivity | now rewrite Hv, IH ].
Qed.

(** ** The challenge components in the page *)

Lemma clicks_render (c : Component) : clicks (render c) = [].
Proof. now destruct c. Qed.

Lemma keys_render (c : Component) : keys (render c) = [].
Proof. now destruct c. Qed.

Lemma clicks_expand (v : VNode) : clicks (expand v) = clicks v.
Proof.
  induction v as [t p ch IH | s | n | c] using VNode_nested_ind;
    try reflexivity.
  - simpl. rewrite (flat_map_map_ext clicks expand ch IH). reflexivity.
  - apply clicks_render.
Qed.

Lemma keys_expand (v : VNode) : keys (expand v) = keys v.
Proof.
  induction v as [t p ch IH | s | n | c] using VNode_nested_ind;
    try reflexivity.
  - simpl. rewrite (flat_map_map_ext keys expand ch IH). reflexivity.
  - apply keys_render.
Qed.

(** ** The highlight *)

Lemma filter_none {A : Type} (f : A -> bool) (l : list A) :
  (forall x, In x l -> f x = false) -> filter f l = [].
Proof.
  induction l as [| x l IH]; simpl; intros Hf; [ reflexivity | ].
  rewrite (Hf x (or_introl eq_refl)). apply IH.
  intros y Hy. apply Hf. now right.
Qed.

Section HighlightFacts.

Variable registry : list ChallengeDescriptor.

Lemma highlighted_entry (s : State) (c : ChallengeDescriptor) :
  highlighted (entry s c) =
  if selectedChallenge s =? id c then [ SetSelectedChallenge (id c) ] else [].
Proof.
  unfold entry. simpl highlighted. unfold isHighlighted. simpl style.
  destruct (selectedChallenge s =? id c); reflexivity.
Qed.

Lemma highlighted_entries (s : State) (l : list ChallengeDescriptor) :
  flat_map highlighted (map (entry s) l) =
  map (fun c => SetSelectedChallenge (id c))
      (filter (fun c => selectedChallenge s =? id c) l).
Proof.
  induction l as [| c l IH]; [ reflexivity | ].
  cbn [map flat_map filter]. rewrite highlighted_entry, IH.
  now destruct (selectedChallenge s =? id c).
Qed.

Lemma highlighted_body (s : State) :
  flat_map highlighted (body registry s) = [].
Proof. unfold body. now destruct (CurrentChallenge registry s). Qed.

(** The highlighted buttons are those of the entries whose id is the
    selected one. *)
Lemma highlighted_App (s : State) :
  highlighted (App registry s) =
  map (fun c => SetSelectedChallenge (id c))
      (filter (fun c => selectedChallenge s =? id c) registry).
Proof.
  unfold App, layout, sidebar, main. simpl.
  rewrite highlighted_entries, highlighted_body. now rewrite !app_nil_r.
Qed.

Lemma filter_id_unique (d : ChallengeDescriptor) :
  NoDup (map id registry) -> In d registry ->
  filter (fun c => id d =? id c) registry = [ d ].
Proof.
  induction registry as [| c l IH]; simpl; intros Hnd Hin.
  - contradiction.
  - inversion Hnd as [| x xs Hfresh Hrest]; subst.
    destruct Hin as [-> | Hin].
    + rewrite Z.eqb_refl. f_equal.
      apply filter_none. intros c Hc. apply Z.eqb_neq.
      intros Heq. apply Hfresh. rewrite Heq. now apply in_map.
    + destruct (Z.eqb_spec (id d) (id c)) as [Heq | _].
      * exfalso. apply Hfresh. rewrite <- Heq. now apply in_map.
      * now apply IH.
Qed.

Lemma filter_id_absent (i : Z) :
  ~ In i (map id registry) ->
  filter (fun c => i =? id c) registry = [].
Proof.
  intros Hn. apply filter_none. intros c Hc. apply Z.eqb_neq.
  intros ->. apply Hn. now apply in_map.
Qed.

End HighlightFacts.

(** ** The expanded page *)

Lemma expand_entry (s : State) (c : ChallengeDescriptor) :
  expand (entry s c) = entry s c.
Proof. reflexivity. Qed.

Lemma expand_entries (s : State) (l : list ChallengeDescriptor) :
  map expand (map (entry s) l) = map (entry s) l.
Proof.
  induction l as [| c l IH]; [ reflexivity | ].
  cbn [map]. rewrite IH. now rewrite expand_entry.
Qed.

Lemma headings_entries (s : State) (l : list ChallengeDescriptor) :
  flat_map headings (map (entry s) l) = [].
Proof.
  induction l as [| c l IH]; [ reflexivity | ].
  cbn [map flat_map]. rewrite IH. reflexivity.
Qed.

(** The only [<h2>] of the page is the one of the current challenge. *)
Lemma headings_App (registry : list ChallengeDescriptor) (s : State) :
  headings (expand (App registry s)) =
  match CurrentChallenge registry s with
  | Some c => headings (render c)
  | None => []
  end.
Proof.
  unfold App, layout, sidebar, main, body.
  cbn [expand map]. rewrite expand_entries.
  cbn [headings flat_map String.eqb Ascii.eqb Bool.eqb header app].
  rewrite headings_entries.
  destruct (CurrentChallenge registry s) as [c |]; [ | reflexivity ].
  cbn [map expand flat_map]. now rewrite !app_nil_r.
Qed.

Lemma CurrentChallenge_unique (registry : list ChallengeDescriptor)
    (s : State) (d : ChallengeDescriptor) :
  NoDup (map id registry) -> In d registry -> selectedChallenge s = id d ->
  CurrentChallenge registry s = Some (component d).
Proof.
  intros Hnd Hin Hsel. unfold CurrentChallenge, activeDescriptor.
  rewrite Hsel. now rewrite (findById_unique registry d Hnd Hin).
Qed.

Lemma last_cons_default {A : Type} (l : list A) (a d d' : A) :
  last (a :: l) d = last (a :: l) d'.
Proof.
  revert a. induction l as [| b l IH]; intros a; [ reflexivity | ].
  change (last (b :: l) d = last (b :: l) d'). apply IH.
Qed.

(** The highlight and the body agree, in a registry with distinct
    ids. *)
Lemma highlight_unique_aux (s : State) (d : ChallengeDescriptor) :
  In d challenges -> selectedChallenge s = id d ->
  highlighted (App challenges s) = [ SetSelectedChallenge (id d) ] /\
  mounted (App challenges s) = [ component d ].
Proof.
  intros Hin Hsel. split.
  - rewrite highlighted_App, Hsel.
    now rewrite (filter_id_unique challenges d challenges_NoDup Hin).
  - rewrite mounted_App.
    now rewrite (CurrentChallenge_unique challenges s d challenges_NoDup Hin Hsel).
Qed.

(** ** Further properties of the shell and of the components *)

(** X1.  In a registry with distinct ids, when the selected id is
    that of a descriptor, exactly one sidebar button is highlighted,
    the one that selects this descriptor, and the component mounted
    in [<main>] is this descriptor's. *)
Theorem highlight_matches_body
    (registry : list ChallengeDescriptor) (s : State) (d : ChallengeDescriptor) :
  NoDup (map id registry) ->
  In d registry ->
  selectedChallenge s = id d ->
  highlighted (App registry s) = [ SetSelectedChallenge (id d) ] /\
  mounted (App registry s) = [ component d ].
Proof.
  intros Hnd Hin Hsel. split.
  - rewrite highlighted_App, Hsel.
    now rewrite (filter_id_unique registry d Hnd Hin).
  - rewrite mounted_App.
    now rewrite (CurrentChallenge_unique registry s d Hnd Hin Hsel).
Qed.

Lemma highlight_matches_body_witness :
  highlighted (App challenges {| selectedChallenge := 4 |}) =
    [ SetSelectedChallenge 4 ] /\
  mounted (App challenges {| selectedChallenge := 4 |}) = [ Challenge4 ].
Proof.
  apply (highlight_matches_body challenges {| selectedChallenge := 4 |}
           (mkChallenge 4 "Form Validation" Challenge4 "20-25 min")).
  - exact challenges_NoDup.
  - simpl. auto 6.
  - reflexivity.
Defined.

(** X2.  When the selected id is the id of no descriptor, no sidebar
    button is highlighted and nothing is mounted, while every button
    stays clickable. *)
Theorem no_highlight_without_match
    (registry : list ChallengeDescriptor) (s : State) :
  ~ In (selectedChallenge s) (map id registry) ->
  highlighted (App registry s) = [] /\
  mounted (App registry s) = [] /\
  clicks (App registry s) = map (fun c => SetSelectedChallenge (id c)) registry.
Proof.
  intros Hn. split; [ | split ].
  - rewrite highlighted_App.
    now rewrite (filter_id_absent registry _ Hn).
  - rewrite mounted_App. unfold CurrentChallenge, activeDescriptor.
    now rewrite (findById_absent registry _ Hn).
  - apply clicks_App.
Qed.

Lemma no_highlight_without_match_witness :
  highlighted (App challenges {| selectedChallenge := 0 |}) = [] /\
  mounted (App challenges {| selectedChallenge := 0 |}) = [] /\
  clicks (App challenges {| selectedChallenge := 0 |}) =
    map (fun c => SetSelectedChallenge (id c)) challenges.
Proof.
  apply (no_highlight_without_match challenges {| selectedChallenge := 0 |}).
  simpl. intros Hin.
  repeat (destruct Hin as [Heq | Hin]; [ discriminate Heq | ]).
  exact Hin.
Defined.

(** X3.  In every state the shell can reach, exactly one sidebar
    button is highlighted, and it belongs to the descriptor whose
    component is mounted. *)
Theorem reachable_one_highlight (s : State) :
  reachable challenges s ->
  exists d,
    In d challenges /\
    highlighted (App challenges s) = [ SetSelectedChallenge (id d) ] /\
    mounted (App challenges s) = [ component d ].
Proof.
  intros Hr.
  assert (Hin : In (selectedChallenge s) (map id challenges)).
  { apply reachable_inv; [ simpl; now left | exact Hr ]. }
  apply in_map_iff in Hin. destruct Hin as [d [Hd Hin]].
  exists d. split; [ exact Hin | ].
  apply highlight_unique_aux; [ exact Hin | now symmetry ].
Qed.

Lemma reachable_one_highlight_witness :
  exists d,
    In d challenges /\
    highlighted (App challenges {| selectedChallenge := 5 |}) =
      [ SetSelectedChallenge (id d) ] /\
    mounted (App challenges {| selectedChallenge := 5 |}) = [ component d ].
Proof.
  apply (reachable_one_highlight {| selectedChallenge := 5 |}).
  apply reach_step with (s := initialState).
  - apply reach_init.
  - apply (step_click challenges initialState (SetSelectedChallenge 5)).
    simpl. auto 7.
Defined.

(** X4.  The lookup takes the first entry that carries the id: in a
    registry where an id occurs again further down, selecting it
    still activates and mounts the earlier entry. *)
Theorem first_match_wins
    (before after : list ChallengeDescriptor) (d : ChallengeDescriptor)
    (s : State) :
  (forall c, In c before -> id c <> id d) ->
  findById (before ++ d :: after) (id d) = Some d /\
  mounted (App (before ++ d :: after) (setSelectedChallenge (id d) s)) =
    [ component d ].
Proof.
  intros Hbefore.
  assert (Hf : findById (before ++ d :: after) (id d) = Some d).
  { unfold findById. induction before as [| c l IH]; simpl.
    - now rewrite Z.eqb_refl.
    - destruct (Z.eqb_spec (id c) (id d)) as [Heq | _].
      + exfalso. apply (Hbefore c); [ now left | exact Heq ].
      + apply IH. intros c' Hc'. apply Hbefore. now right. }
  split; [ exact Hf | ].
  rewrite mounted_App. unfold CurrentChallenge, activeDescriptor.
  change (selectedChallenge (setSelectedChallenge (id d) s)) with (id d).
  now rewrite Hf.
Qed.

Lemma first_match_wins_witness :
  findById
    [ mkChallenge 1 "User List with Fetch" Challenge1 "10-15 min";
      mkChallenge 2 "Search & Filter" Challenge2 "15-20 min";
      mkChallenge 2 "Todo List (CRUD)" Challenge3 "20-25 min" ] 2 =
    Some (mkChallenge 2 "Search & Filter" Challenge2 "15-20 min") /\
  mounted
    (App
       [ mkChallenge 1 "User List with Fetch" Challenge1 "10-15 min";
         mkChallenge 2 "Search & Filter" Challenge2 "15-20 min";
         mkChallenge 2 "Todo List (CRUD)" Challenge3 "20-25 min" ]
       (setSelectedChallenge 2 initialState)) = [ Challenge2 ].
Proof.
  apply (first_match_wins
           [ mkChallenge 1 "User List with Fetch" Challenge1 "10-15 min" ]
           [ mkChallenge 2 "Todo List (CRUD)" Challenge3 "20-25 min" ]
           (mkChallenge 2 "Search & Filter" Challenge2 "15-20 min")
           initialState).
  intros c [<- | []]. discriminate.
Defined.

(** X5.  Where a click leads does not depend on where it starts:
    a state that one click reaches from some state is reached by one
    click from every state. *)
Theorem step_from_anywhere
    (registry : list ChallengeDescriptor) (s t s' : State) :
  step registry s s' -> step registry t s'.
Proof.
  intros Hs. apply step_iff in Hs. destruct Hs as [i [Hi ->]].
  apply step_iff. exists i. split; [ exact Hi | reflexivity ].
Qed.

Lemma step_from_anywhere_witness :
  step challenges {| selectedChallenge := 5 |} {| selectedChallenge := 3 |}.
Proof.
  apply (step_from_anywhere challenges initialState).
  apply (step_click challenges initialState (SetSelectedChallenge 3)).
  simpl. auto.
Defined.

(** X6.  The states the shell can reach are the initial state and the
    states whose selected id is an id of the registry, no others; with
    an empty registry the shell stays in its initial state. *)
Theorem reachable_iff (registry : list ChallengeDescriptor) (s : State) :
  reachable registry s <->
  s = initialState \/ In (selectedChallenge s) (map id registry).
Proof.
  split.
  - intros Hr. induction Hr as [| s s' _ _ Hstep].
    + now left.
    + right. apply step_iff in Hstep. destruct Hstep as [i [Hi ->]]. exact Hi.
  - intros [-> | Hin].
    + apply reach_init.
    + apply reach_step with (s := initialState); [ apply reach_init | ].
      apply step_iff. exists (selectedChallenge s).
      split; [ exact Hin | now destruct s ].
Qed.

Lemma reachable_iff_witness :
  reachable challenges {| selectedChallenge := 3 |} /\
  ~ reachable challenges {| selectedChallenge := 6 |} /\
  ~ reachable [] {| selectedChallenge := 2 |}.
Proof.
  split; [ | split ].
  - apply (proj2 (reachable_iff challenges {| selectedChallenge := 3 |})).
    right. simpl. auto.
  - intros Hr.
    apply (proj1 (reachable_iff challenges {| selectedChallenge := 6 |})) in Hr.
    destruct Hr as [Heq | Hin]; [ discriminate Heq | ].
    simpl in Hin.
    repeat (destruct Hin as [Heq | Hin]; [ discriminate Heq | ]).
    exact Hin.
  - intros Hr.
    apply (proj1 (reachable_iff [] {| selectedChallenge := 2 |})) in Hr.
    destruct Hr as [Heq | Hin]; [ discriminate Heq | exact Hin ].
Defined.

(** X7.  The shell keeps no history: after any run of selections the
    selected id is the last one of the run, and the one it had before
    when the run is empty. *)
Theorem selectAll_last (ids : list Z) (s : State) :
  selectedChallenge (selectAll ids s) = last ids (selectedChallenge s).
Proof.
  unfold selectAll. revert s.
  induction ids as [| i ids IH]; intros s; [ reflexivity | ].
  cbn [fold_left]. rewrite IH.
  destruct ids as [| j ids]; [ reflexivity | ].
  change (selectedChallenge (setSelectedChallenge i s)) with i.
  change (last (i :: j :: ids) (selectedChallenge s))
    with (last (j :: ids) (selectedChallenge s)).
  apply last_cons_default.
Qed.

(** X8.  The challenge components bring no click handler and no keyed
    element into the page: once they are rendered in place, the
    handlers of the page are still one per registry entry, in
    registry order, and so are the keys. *)
Theorem expand_keeps_handlers (registry : list ChallengeDescriptor) (s : State) :
  clicks (expand (App registry s)) =
    map (fun c => SetSelectedChallenge (id c)) registry /\
  keys (expand (App registry s)) = map id registry.
Proof.
  split.
  - rewrite clicks_expand. apply clicks_App.
  - rewrite keys_expand. apply keys_App.
Qed.

(** X9.  For every descriptor of the registry, the page shown when it
    is selected has a single [<h2>], which reads "Challenge", the
    descriptor's id, a colon and a title that the descriptor's name
    starts with: each entry is wired to the component of its own
    number. *)
Theorem heading_matches_entry (s : State) (d : ChallengeDescriptor) :
  In d challenges ->
  selectedChallenge s = id d ->
  exists title,
    headings (expand (App challenges s)) =
      [ String.append "Challenge "
          (String.append (numberText (id d)) (String.append ": " title)) ] /\
    String.prefix title (name d) = true.
Proof.
  intros Hin Hsel. rewrite headings_App.
  rewrite (CurrentChallenge_unique challenges s d challenges_NoDup Hin Hsel).
  simpl in Hin.
  destruct Hin as [<- | [<- | [<- | [<- | [<- | []]]]]].
  - exists "User List". split; reflexivity.
  - exists "Search & Filter". split; reflexivity.
  - exists "Todo List". split; reflexivity.
  - exists "Form Validation". split; reflexivity.
  - exists "Custom Hook". split; reflexivity.
Qed.

Lemma heading_matches_entry_witness :
  exists title,
    headings (expand (App challenges {| selectedChallenge := 3 |})) =
      [ String.append "Challenge "
          (String.append (numberText 3) (String.append ": " title)) ] /\
    String.prefix title "Todo List (CRUD)" = true.
Proof.
  apply (heading_matches_entry {| selectedChallenge := 3 |}
           (mkChallenge 3 "Todo List (CRUD)" Challenge3 "20-25 min")).
  - simpl. auto.
  - reflexivity.
Defined.

(** X10.  Every challenge component is one click away from every
    state: some registry entry carries it, its button is in the view,
    and after the click that component, and only it, is mounted. *)
Theorem every_component_one_click (c : Component) (s : State) :
  exists d,
    In d challenges /\
    component d = c /\
    step challenges s (setSelectedChallenge (id d) s) /\
    mounted (App challenges (setSelectedChallenge (id d) s)) = [ c ].
Proof.
  assert (Hd : exists d, In d challenges /\ component d = c).
  { destruct c;
      [ exists (mkChallenge 1 "User List with Fetch" Challenge1 "10-15 min")
      | exists (mkChallenge 2 "Search & Filter" Challenge2 "15-20 min")
      | exists (mkChallenge 3 "Todo List (CRUD)" Challenge3 "20-25 min")
      | exists (mkChallenge 4 "Form Validation" Challenge4 "20-25 min")
      | exists (mkChallenge 5 "Custom Hook" Challenge5 "15-20 min") ];
      (split; [ simpl; auto 7 | reflexivity ]). }
  destruct Hd as [d [Hin Hc]]. exists d.
  split; [ exact Hin | ]. split; [ exact Hc | ]. split.
  - apply step_iff. exists (id d). split; [ now apply in_map | reflexivity ].
  - rewrite mounted_App.
    rewrite (CurrentChallenge_unique challenges (setSelectedChallenge (id d) s)
               d challenges_NoDup Hin eq_refl).
    now rewrite Hc.
Qed.

Lemma length_filter_id (l : list ChallengeDescriptor) (i : Z) :
  List.length (filter (fun c => i =? id c) l) = count_occ Z.eq_dec (map id l) i.
Proof.
  induction l as [| c l IH]; simpl; [ reflexivity | ].
  destruct (Z.eq_dec (id c) i) as [Heq | Hne];
    destruct (Z.eqb_spec i (id c)) as [Heq' | Hne']; simpl; congruence.
Qed.

(** X11.  Whatever the registry, also one that repeats an id, the view
    mounts at most one component, while it highlights as many buttons
    as there are entries carrying the selected id. *)
Theorem one_body_many_highlights
    (registry : list ChallengeDescriptor) (s : State) :
  (List.length (mounted (App registry s)) <= 1)%nat /\
  List.length (highlighted (App registry s)) =
    count_occ Z.eq_dec (map id registry) (selectedChallenge s).
Proof.
  split.
  - rewrite mounted_App.
    destruct (CurrentChallenge registry s); simpl; lia.
  - rewrite highlighted_App, length_map. apply length_filter_id.
Qed.
